(** * Movie repository of movies-api (internal/data/movies.go)

    A shallow embedding of the movie data-access layer: the [Movie] record,
    the PostgreSQL [movies] table it is persisted in (migrations 000001 and
    000002), the repository operations [Insert], [Get], [GetAll], [Update],
    [Delete] and the field checks of [ValidateMovie].

    Go conventions kept in the model:
    - a Go slice is [slice A := option (list A)], [None] being the nil slice;
    - an operation that returns [error] returns [option goerr];
    - a [*Movie] argument mutated in place is passed in and handed back;
    - the database is a [store] threaded through each call; every round trip
      increments [st_trips], so "no round trip" is "the store is unchanged". *)

From Stdlib Require Import ZArith List String Ascii Bool QArith Qround Lia Permutation.
Import ListNotations.
Open Scope Z_scope.

(** ** Go values *)

(** A Go slice: [None] is the nil slice, [Some l] a non-nil slice. *)
Definition slice (A : Type) := option (list A).

(** [time.Time], to the second: a year and the seconds elapsed in it.
    The zero [time.Time] is January 1 of year 1, 00:00:00. *)
Record time := mkTime { t_year : Z; t_sec : Z }.

Definition zero_time : time := mkTime 1 0.

(** [t.IsZero()] *)
Definition IsZero (t : time) : bool := (t_year t =? 1) && (t_sec t =? 0).

(** [t.Year()] *)
Definition Year (t : time) : Z := t_year t.

(** [t.Before(u)]: [t] is strictly earlier than [u]. *)
Definition Before (t u : time) : bool :=
  (t_year t <? t_year u) || ((t_year t =? t_year u) && (t_sec t <? t_sec u)).

(** [type Movie struct]; the [float32] rating is kept as its exact value. *)
Record Movie := mkMovie {
  ID : Z;
  Title : string;
  Overview : string;
  Language : string;
  ReleaseDate : time;
  Rating : Q;
  PosterURL : string;
  BackdropURL : string;
  Genres : slice string;
  Version : Z;
  CreatedAt : time
}.

(** ** Errors *)

(** Errors reported by [database/sql] and the PostgreSQL driver. *)
Inductive db_error :=
| ErrNoRows                     (* sql.ErrNoRows *)
| DbErr (msg : string).         (* any other driver or server error *)

(** The [error] values the repository returns: its own two sentinels, or a
    store error passed through. *)
Inductive goerr :=
| ErrRecordNotFound
| ErrEditConflict
| StoreErr (e : db_error).

(** ** Pagination metadata and filters *)

Record Metadata := mkMetadata {
  CurrentPage : Z;
  MdPageSize : Z;
  FirstPage : Z;
  LastPage : Z;
  TotalRecords : Z
}.

Definition Metadata_zero : Metadata := mkMetadata 0 0 0 0 0.

(** Modelled from the spec: [calculateMetadata] (internal/data/filters.go,
    not among the sources). "returns zero-valued metadata when
    totalRecords == 0; otherwise computes firstPage = 1,
    lastPage = ceil(totalRecords / pageSize)"; the other fields carry the
    current page, the page size and the total. [- ((- t) / p)] is the ceiling
    of [t / p] with [Z.div] rounding down. *)
Definition calculateMetadata (totalRecords page pageSize : Z) : Metadata :=
  if totalRecords =? 0 then Metadata_zero
  else {| CurrentPage := page;
          MdPageSize := pageSize;
          FirstPage := 1;
          LastPage := - ((- totalRecords) / pageSize);
          TotalRecords := totalRecords |}.

(** Modelled from the spec: the [Filters] value of internal/data/filters.go
    (not among the sources). *)
Record Filters := mkFilters {
  Page : Z;
  PageSize : Z;
  Sort : string;
  SortSafelist : list string
}.

Definition has_dash_prefix (s : string) : bool :=
  match s with
  | String "-" _ => true
  | _ => false
  end.

Definition trim_dash_prefix (s : string) : string :=
  match s with
  | String "-" r => r
  | _ => s
  end.

(** Modelled from the spec: [filters.sortColumn()]. The bare column name,
    leading "-" removed, when [Sort] is in the safe-list; otherwise a panic,
    written [None]. *)
Definition sortColumn (f : Filters) : option string :=
  if existsb (String.eqb (Sort f)) (SortSafelist f)
  then Some (trim_dash_prefix (Sort f)) else None.

(** Modelled from the spec: [filters.sortDirection()]. *)
Definition sortDirection (f : Filters) : string :=
  if has_dash_prefix (Sort f) then "DESC" else "ASC".

(** Modelled from the spec: [filters.limit()] and [filters.offset()]. *)
Definition limit (f : Filters) : Z := PageSize f.
Definition offset (f : Filters) : Z := (Page f - 1) * PageSize f.

(** ** The [movies] table *)

(** A row of [movies] (migration 000001). [genres text[] NOT NULL]. *)
Record row := mkRow {
  r_id : Z;
  r_created_at : time;
  r_title : string;
  r_overview : string;
  r_language : string;
  r_release_date : time;
  r_rating : Q;
  r_poster_url : string;
  r_backdrop_url : string;
  r_genres : list string;
  r_version : Z
}.

(** The database as seen by [MovieModel.DB]: the rows, the next value of the
    [bigserial] sequence, the server clock, the number of round trips made
    so far, and an injected failure (timeout, lost connection) that every
    round trip reports while it is set. *)
Record store := mkStore {
  st_rows : list row;
  st_next_id : Z;
  st_now : time;
  st_trips : nat;
  st_fail : option string
}.

Definition set_rows (st : store) (rs : list row) : store :=
  mkStore rs (st_next_id st) (st_now st) (st_trips st) (st_fail st).

Definition set_next_id (st : store) (n : Z) : store :=
  mkStore (st_rows st) n (st_now st) (st_trips st) (st_fail st).

(** One round trip to the server. *)
Definition trip (st : store) : store :=
  mkStore (st_rows st) (st_next_id st) (st_now st) (S (st_trips st)) (st_fail st).

(** [pq.Array(s)] as a query parameter: a nil slice is sent as SQL NULL
    ([StringArray.Value] returns nil for a nil slice), any other slice as an
    array. *)
Definition pq_array (s : slice string) : option (list string) := s.

(** A Go [time.Time] stored in a [date] column keeps the day only. *)
Definition to_date (t : time) : time := mkTime (t_year t) (t_sec t - t_sec t mod 86400).

(** [movies_release_date_check] (migration 000002). *)
Definition release_date_check (now rd : time) : bool :=
  (1888 <=? Year rd) && (Year rd <=? Year now).

(** [genres_length_check] (migration 000002): [array_length] of an empty
    array is NULL, and a CHECK on NULL passes. *)
Definition genres_length_check (gs : list string) : bool :=
  match gs with
  | [] => true
  | _ => (1 <=? Z.of_nat (List.length gs)) && (Z.of_nat (List.length gs) <=? 5)
  end.

(** Maximum of the [integer] column [version]. *)
Definition int4_max : Z := 2147483647.

Definition movie_of_row (r : row) : Movie :=
  {| ID := r_id r; Title := r_title r; Overview := r_overview r;
     Language := r_language r; ReleaseDate := r_release_date r;
     Rating := r_rating r; PosterURL := r_poster_url r;
     BackdropURL := r_backdrop_url r; Genres := Some (r_genres r);
     Version := r_version r; CreatedAt := r_created_at r |}.

(** ** Insert *)

(** [INSERT INTO movies (...) VALUES ($1, ..., $8) RETURNING id, created_at,
    version]: [id] draws the sequence, [created_at] defaults to [NOW()],
    [version] to 1; then NOT NULL and CHECK constraints are enforced. *)
Definition pg_insert (st0 : store) (m : Movie) : store * (db_error + (Z * time * Z)) :=
  let st := trip st0 in
  match st_fail st with
  | Some msg => (st, inl (DbErr msg))
  | None =>
    let id := st_next_id st in
    let st1 := set_next_id st (id + 1) in
    match pq_array (Genres m) with
    | None => (st1, inl (DbErr "null value in column genres"))
    | Some gs =>
      if negb (release_date_check (st_now st) (ReleaseDate m))
      then (st1, inl (DbErr "movies_release_date_check"))
      else if negb (genres_length_check gs)
      then (st1, inl (DbErr "genres_length_check"))
      else
        let r := mkRow id (st_now st) (Title m) (Overview m) (Language m)
                   (to_date (ReleaseDate m)) (Rating m) (PosterURL m)
                   (BackdropURL m) gs 1 in
        (set_rows st1 (st_rows st1 ++ [r]), inr (id, st_now st, 1))
    end
  end.

(** [func (m MovieModel) Insert(movie *Movie) error]: [Scan(&movie.ID,
    &movie.CreatedAt, &movie.Version)]. *)
Definition Insert (st : store) (movie : Movie) : store * Movie * option goerr :=
  let (st', res) := pg_insert st movie in
  match res with
  | inl e => (st', movie, Some (StoreErr e))
  | inr (id, created, ver) =>
    (st', {| ID := id; Title := Title movie; Overview := Overview movie;
             Language := Language movie; ReleaseDate := ReleaseDate movie;
             Rating := Rating movie; PosterURL := PosterURL movie;
             BackdropURL := BackdropURL movie; Genres := Genres movie;
             Version := ver; CreatedAt := created |}, None)
  end.

(** ** Get *)

(** [SELECT ... FROM movies WHERE id = $1] through [QueryRow]: no row is
    [sql.ErrNoRows]. *)
Definition pg_select_by_id (st0 : store) (id : Z) : store * (db_error + row) :=
  let st := trip st0 in
  match st_fail st with
  | Some msg => (st, inl (DbErr msg))
  | None =>
    match find (fun r => r_id r =? id) (st_rows st) with
    | Some r => (st, inr r)
    | None => (st, inl ErrNoRows)
    end
  end.

(** [func (m MovieModel) Get(id int64) ( *Movie, error)] *)
Definition Get (st : store) (id : Z) : store * option Movie * option goerr :=
  if id <? 1 then (st, None, Some ErrRecordNotFound)
  else
    let (st', res) := pg_select_by_id st id in
    match res with
    | inl ErrNoRows => (st', None, Some ErrRecordNotFound)
    | inl e => (st', None, Some (StoreErr e))
    | inr r => (st', Some (movie_of_row r), None)
    end.

(** ** Update *)

(** [UPDATE movies SET ..., version = version + 1 WHERE id = $9 AND
    version = $10 RETURNING version] through [QueryRow]: no matching row is
    [sql.ErrNoRows]; [version + 1] past the [integer] range is an error;
    NOT NULL and CHECK constraints hold on the new row. *)
Definition pg_update (st0 : store) (m : Movie) : store * (db_error + Z) :=
  let st := trip st0 in
  match st_fail st with
  | Some msg => (st, inl (DbErr msg))
  | None =>
    let hit r := (r_id r =? ID m) && (r_version r =? Version m) in
    if negb (existsb hit (st_rows st)) then (st, inl ErrNoRows)
    else if Version m =? int4_max then (st, inl (DbErr "integer out of range"))
    else
      match pq_array (Genres m) with
      | None => (st, inl (DbErr "null value in column genres"))
      | Some gs =>
        if negb (release_date_check (st_now st) (ReleaseDate m))
        then (st, inl (DbErr "movies_release_date_check"))
        else if negb (genres_length_check gs)
        then (st, inl (DbErr "genres_length_check"))
        else
          let upd r :=
            if hit r
            then mkRow (r_id r) (r_created_at r) (Title m) (Overview m)
                   (Language m) (to_date (ReleaseDate m)) (Rating m)
                   (PosterURL m) (BackdropURL m) gs (r_version r + 1)
            else r in
          (set_rows st (map upd (st_rows st)), inr (Version m + 1))
      end
  end.

(** [func (m MovieModel) Update(movie *Movie) error]: [Scan(&movie.Version)]. *)
Definition Update (st : store) (movie : Movie) : store * Movie * option goerr :=
  let (st', res) := pg_update st movie in
  match res with
  | inl ErrNoRows => (st', movie, Some ErrEditConflict)
  | inl e => (st', movie, Some (StoreErr e))
  | inr v =>
    (st', {| ID := ID movie; Title := Title movie; Overview := Overview movie;
             Language := Language movie; ReleaseDate := ReleaseDate movie;
             Rating := Rating movie; PosterURL := PosterURL movie;
             BackdropURL := BackdropURL movie; Genres := Genres movie;
             Version := v; CreatedAt := CreatedAt movie |}, None)
  end.

(** ** Delete *)

(** [DELETE FROM movies WHERE id = $1] through [ExecContext]: an execution
    error, or a [sql.Result] whose [RowsAffected()] gives the count (lib/pq
    never fails there). *)
Definition pg_delete (st0 : store) (id : Z) : store * (db_error + (db_error + Z)) :=
  let st := trip st0 in
  match st_fail st with
  | Some msg => (st, inl (DbErr msg))
  | None =>
    let kept := filter (fun r => negb (r_id r =? id)) (st_rows st) in
    (set_rows st kept,
     inr (inr (Z.of_nat (List.length (st_rows st)) - Z.of_nat (List.length kept))))
  end.

(** [func (m MovieModel) Delete(id int64) error] *)
Definition Delete (st : store) (id : Z) : store * option goerr :=
  if id <? 1 then (st, Some ErrRecordNotFound)
  else
    let (st', res) := pg_delete st id in
    match res with
    | inl e => (st', Some (StoreErr e))
    | inr (inl e) => (st', Some (StoreErr e))
    | inr (inr rowsAffected) =>
      if rowsAffected =? 0 then (st', Some ErrRecordNotFound) else (st', None)
    end.

(** ** GetAll *)

(** The text-search parser of the ['simple'] configuration, for ASCII text:
    maximal runs of letters and digits, lower-cased. *)
Definition is_word_char (c : ascii) : bool :=
  let n := nat_of_ascii c in
  ((48 <=? n) && (n <=? 57))%nat || ((65 <=? n) && (n <=? 90))%nat
  || ((97 <=? n) && (n <=? 122))%nat.

Definition lower (c : ascii) : ascii :=
  let n := nat_of_ascii c in
  if ((65 <=? n) && (n <=? 90))%nat then ascii_of_nat (n + 32) else c.

Fixpoint split_words (cs : list ascii) (cur : list ascii) : list string :=
  match cs with
  | [] => match cur with [] => [] | _ => [string_of_list_ascii (rev cur)] end
  | c :: cs' =>
    if is_word_char c then split_words cs' (lower c :: cur)
    else match cur with
         | [] => split_words cs' []
         | _ => string_of_list_ascii (rev cur) :: split_words cs' []
         end
  end.

Definition lexemes (s : string) : list string := split_words (list_ascii_of_string s) [].

(** [to_tsvector('simple', doc) @@ plainto_tsquery('simple', q)]: every
    lexeme of [q] occurs in [doc]; a query without lexemes matches nothing. *)
Definition ts_match (doc q : string) : bool :=
  let ql := lexemes q in
  match ql with
  | [] => false
  | _ => forallb (fun w => existsb (String.eqb w) (lexemes doc)) ql
  end.

(** SQL three-valued logic: [None] is NULL. *)
Definition sql_or (a b : option bool) : option bool :=
  match a, b with
  | Some true, _ | _, Some true => Some true
  | Some false, Some false => Some false
  | _, _ => None
  end.

Definition sql_and (a b : option bool) : option bool :=
  match a, b with
  | Some false, _ | _, Some false => Some false
  | Some true, Some true => Some true
  | _, _ => None
  end.

(** [genres @> p]: each element of [p] equals some element of [genres]. *)
Definition array_contains (have : list string) (p : option (list string)) : option bool :=
  match p with
  | None => None
  | Some want => Some (forallb (fun g => existsb (String.eqb g) have) want)
  end.

(** [p = '{}'] *)
Definition array_is_empty (p : option (list string)) : option bool :=
  match p with
  | None => None
  | Some [] => Some true
  | Some _ => Some false
  end.

(** The parameters of the query [GetAll] sends: [$1] to [$4] and the column
    and direction spliced into the text by [fmt.Sprintf]. *)
Record select_query := mkSelect {
  sq_title : string;
  sq_genres : option (list string);
  sq_col : string;
  sq_dir : string;
  sq_limit : Z;
  sq_offset : Z
}.

(** [WHERE (to_tsvector('simple', title) @@ plainto_tsquery('simple', $1)
    OR $1 = '') AND (genres @> $2 OR $2 = '{}')] *)
Definition where_clause (q : select_query) (r : row) : option bool :=
  sql_and (sql_or (Some (ts_match (r_title r) (sq_title q)))
                  (Some (String.eqb (sq_title q) "")))
          (sql_or (array_contains (r_genres r) (sq_genres q))
                  (array_is_empty (sq_genres q))).

Definition selected (q : select_query) (r : row) : bool :=
  match where_clause q r with Some true => true | _ => false end.

(** Column values, for [ORDER BY]. *)
Inductive sqlval :=
| VInt (z : Z) | VText (s : string) | VTime (t : time) | VReal (x : Q)
| VArr (l : list string).

Definition column (name : string) (r : row) : option sqlval :=
  if String.eqb name "id" then Some (VInt (r_id r))
  else if String.eqb name "created_at" then Some (VTime (r_created_at r))
  else if String.eqb name "title" then Some (VText (r_title r))
  else if String.eqb name "overview" then Some (VText (r_overview r))
  else if String.eqb name "language" then Some (VText (r_language r))
  else if String.eqb name "release_date" then Some (VTime (r_release_date r))
  else if String.eqb name "rating" then Some (VReal (r_rating r))
  else if String.eqb name "poster_url" then Some (VText (r_poster_url r))
  else if String.eqb name "backdrop_url" then Some (VText (r_backdrop_url r))
  else if String.eqb name "genres" then Some (VArr (r_genres r))
  else if String.eqb name "version" then Some (VInt (r_version r))
  else None.

Definition column_exists (name : string) : bool :=
  match column name (mkRow 0 zero_time "" "" "" zero_time 0 "" "" [] 0) with
  | Some _ => true | None => false
  end.

Fixpoint compare_arrays (a b : list string) : comparison :=
  match a, b with
  | [], [] => Eq
  | [], _ => Lt
  | _, [] => Gt
  | x :: a', y :: b' =>
    match String.compare x y with Eq => compare_arrays a' b' | c => c end
  end.

Definition compare_val (a b : sqlval) : comparison :=
  match a, b with
  | VInt x, VInt y => Z.compare x y
  | VText x, VText y => String.compare x y
  | VTime x, VTime y =>
    match Z.compare (t_year x) (t_year y) with
    | Eq => Z.compare (t_sec x) (t_sec y) | c => c end
  | VReal x, VReal y => Qcompare x y
  | VArr x, VArr y => compare_arrays x y
  | _, _ => Eq
  end.

(** [ORDER BY col dir, id ASC] *)
Definition order_by (col dir : string) (r1 r2 : row) : comparison :=
  let c := match column col r1, column col r2 with
           | Some v1, Some v2 => compare_val v1 v2
           | _, _ => Eq
           end in
  let c := if String.eqb dir "DESC" then CompOpp c else c in
  match c with
  | Eq => Z.compare (r_id r1) (r_id r2)
  | _ => c
  end.

Fixpoint insert_by {A} (cmp : A -> A -> comparison) (x : A) (l : list A) : list A :=
  match l with
  | [] => [x]
  | y :: l' => match cmp x y with Gt => y :: insert_by cmp x l' | _ => x :: l end
  end.

Fixpoint sort_by {A} (cmp : A -> A -> comparison) (l : list A) : list A :=
  match l with
  | [] => []
  | x :: l' => insert_by cmp x (sort_by cmp l')
  end.

(** A result row: [count( * ) OVER()] and the movie columns. *)
Record result_row := mkResult { rr_count : Z; rr_row : row }.

(** What [QueryContext] hands back: the rows, each either scannable or
    reporting a mapping error, and the error [rows.Err()] reports once
    [rows.Next()] stops. *)
Definition cursor := (list (db_error + result_row) * option db_error)%type.

(** The server's answer to the [GetAll] query. *)
Definition pg_select (st : store) (q : select_query) : db_error + cursor :=
  match st_fail st with
  | Some msg => inl (DbErr msg)
  | None =>
    if negb (column_exists (sq_col q)) then inl (DbErr "column does not exist")
    else if sq_limit q <? 0 then inl (DbErr "LIMIT must not be negative")
    else if sq_offset q <? 0 then inl (DbErr "OFFSET must not be negative")
    else
      let matched := filter (selected q) (st_rows st) in
      let total := Z.of_nat (List.length matched) in
      let sorted := sort_by (order_by (sq_col q) (sq_dir q)) matched in
      let window := firstn (Z.to_nat (sq_limit q)) (skipn (Z.to_nat (sq_offset q)) sorted) in
      inr (map (fun r => inr (mkResult total r)) window, None)
  end.

(** The [for rows.Next()] loop: each row overwrites [totalRecords] and
    appends its movie; a [Scan] error returns at once. *)
Fixpoint scan_rows (rs : list (db_error + result_row)) (totalRecords : Z)
    (movies : list Movie) : db_error + (Z * list Movie) :=
  match rs with
  | [] => inr (totalRecords, movies)
  | inl e :: _ => inl e
  | inr r :: rs' => scan_rows rs' (rr_count r) (movies ++ [movie_of_row (rr_row r)])
  end.

(** Outcome of [GetAll]: a panic (from [filters.sortColumn()]) or the three
    return values [([]*Movie, Metadata, error)]. *)
Inductive getall_result :=
| GA_panic
| GA_return (movies : slice Movie) (md : Metadata) (err : option goerr).

(** The query [GetAll] builds once the sort column [col] is resolved. *)
Definition getall_query (title : string) (genres : slice string) (filters : Filters)
    (col : string) : select_query :=
  mkSelect title (pq_array genres) col (sortDirection filters)
    (limit filters) (offset filters).

Section GetAll.

(** The database's answer to a query; [pg_select st] is the PostgreSQL one. *)
Variable query : select_query -> db_error + cursor.

(** [func (m MovieModel) GetAll(title string, genres []string, filters
    Filters) ([]*Movie, Metadata, error)] *)
Definition GetAll (title : string) (genres : slice string) (filters : Filters) : getall_result :=
  match sortColumn filters with
  | None => GA_panic
  | Some col =>
    match query (getall_query title genres filters col) with
    | inl e => GA_return None Metadata_zero (Some (StoreErr e))
    | inr (rs, rows_err) =>
      match scan_rows rs 0 [] with
      | inl e => GA_return None Metadata_zero (Some (StoreErr e))
      | inr (totalRecords, movies) =>
        match rows_err with
        | Some e => GA_return None Metadata_zero (Some (StoreErr e))
        | None =>
          GA_return (Some movies)
            (calculateMetadata totalRecords (Page filters) (PageSize filters)) None
        end
      end
    end
  end.

End GetAll.

(** ** ValidateMovie *)

(** Modelled from the spec: the validator of internal/validator (not among
    the sources), used through "check(condition, field, message)":
    violations "accumulate into the shared validator as field/message
    pairs". *)
Record Validator := mkValidator { Errors : list (string * string) }.

Definition AddError (v : Validator) (key message : string) : Validator :=
  mkValidator (Errors v ++ [(key, message)]).

Definition Check (v : Validator) (ok : bool) (key message : string) : Validator :=
  if ok then v else AddError v key message.

(** Modelled from the spec: [validator.Unique], "free of duplicates". *)
Fixpoint Unique (values : list string) : bool :=
  match values with
  | [] => true
  | x :: xs => negb (existsb (String.eqb x) xs) && Unique xs
  end.

(** [len(s)] of a Go slice; a nil slice has length 0. *)
Definition slice_len {A} (s : slice A) : Z :=
  match s with None => 0 | Some l => Z.of_nat (List.length l) end.

Definition slice_elems {A} (s : slice A) : list A :=
  match s with None => [] | Some l => l end.

(** [func ValidateMovie(v *validator.Validator, movie *Movie)]; [now] is the
    value of [time.Now()]. *)
Definition ValidateMovie (now : time) (v : Validator) (movie : Movie) : Validator :=
  let v := Check v (negb (String.eqb (Title movie) "")) "title" "must be provided" in
  let v := Check v (Z.of_nat (String.length (Title movie)) <=? 500) "title"
             "must not be more than 500 bytes long" in
  let v := Check v (negb (IsZero (ReleaseDate movie))) "release_date" "must be provided" in
  let v := Check v (Year (ReleaseDate movie) >=? 1888) "release_date"
             "year must be greater than 1888" in
  let v := Check v (Before (ReleaseDate movie) now) "release_date"
             "must not be in the future" in
  let v := Check v (match Genres movie with None => false | Some _ => true end)
             "genres" "must be provided" in
  let v := Check v (slice_len (Genres movie) >=? 1) "genres"
             "must contain at least 1 genre" in
  let v := Check v (slice_len (Genres movie) <=? 10) "genres"
             "must not contain more than 10 genres" in
  let v := Check v (Unique (slice_elems (Genres movie))) "genres"
             "must not contain duplicate values" in
  v.

(** ** Rules and invariants used by the properties *)

(** The store invariant: the sequence is positive and ahead of every stored
    id, and the server clock is set. *)
Definition store_ok (st : store) : Prop :=
  0 < st_next_id st
  /\ Forall (fun r => r_id r < st_next_id st) (st_rows st)
  /\ IsZero (st_now st) = false.

(** The store invariant together with unique ids. *)
Definition store_wf (st : store) : Prop :=
  store_ok st /\ NoDup (map r_id (st_rows st)).

(** The nine rules of [ValidateMovie] as the spec words them, each with the
    field its violation is recorded under. *)
Definition movie_rules (now : time) (movie : Movie) : list (bool * string) :=
  [ (negb (String.eqb (Title movie) ""), "title"%string);
    (Z.of_nat (String.length (Title movie)) <=? 500, "title"%string);
    (negb (IsZero (ReleaseDate movie)), "release_date"%string);
    (Year (ReleaseDate movie) >=? 1888, "release_date"%string);
    (Before (ReleaseDate movie) now, "release_date"%string);
    (match Genres movie with None => false | Some _ => true end, "genres"%string);
    (slice_len (Genres movie) >=? 1, "genres"%string);
    (slice_len (Genres movie) <=? 10, "genres"%string);
    (Unique (slice_elems (Genres movie)), "genres"%string) ].

(** A movie satisfying every rule: title non-empty and at most 500 bytes,
    release date present, of year at least 1888 and strictly before [now],
    genres present, 1 to 10 of them, no duplicates. *)
Definition movie_valid (now : time) (movie : Movie) : Prop :=
  Title movie <> ""%string
  /\ (String.length (Title movie) <= 500)%nat
  /\ ReleaseDate movie <> zero_time
  /\ 1888 <= Year (ReleaseDate movie)
  /\ Before (ReleaseDate movie) now = true
  /\ exists gs, Genres movie = Some gs
       /\ (1 <= List.length gs <= 10)%nat
       /\ NoDup gs.

Definition violations (rules : list (bool * string)) : list string :=
  map snd (filter (fun c => negb (fst c)) rules).

(** [ValidateMovie] as a sequence of [Check] calls. *)
Definition run_checks (v : Validator) (cs : list (bool * string * string)) : Validator :=
  fold_left (fun v c => Check v (fst (fst c)) (snd (fst c)) (snd c)) cs v.

Definition validate_checks (now : time) (movie : Movie) : list (bool * string * string) :=
  [ (negb (String.eqb (Title movie) ""), "title"%string, "must be provided"%string);
    (Z.of_nat (String.length (Title movie)) <=? 500, "title"%string,
     "must not be more than 500 bytes long"%string);
    (negb (IsZero (ReleaseDate movie)), "release_date"%string, "must be provided"%string);
    (Year (ReleaseDate movie) >=? 1888, "release_date"%string, "year must be greater than 1888"%string);
    (Before (ReleaseDate movie) now, "release_date"%string, "must not be in the future"%string);
    (match Genres movie with None => false | Some _ => true end, "genres"%string,
     "must be provided"%string);
    (slice_len (Genres movie) >=? 1, "genres"%string, "must contain at least 1 genre"%string);
    (slice_len (Genres movie) <=? 10, "genres"%string, "must not contain more than 10 genres"%string);
    (Unique (slice_elems (Genres movie)), "genres"%string, "must not contain duplicate values"%string) ].

Definition check_errors (cs : list (bool * string * string)) : list (string * string) :=
  flat_map (fun c : bool * string * string => if fst (fst c) then [] else [(snd (fst c), snd c)]) cs.

(** ** Sample values *)

Section Samples.
Local Open Scope string_scope.

Definition now0 : time := mkTime 2026 1000.

Definition movie0 : Movie :=
  mkMovie 0 "Seven Samurai" "Bandits." "ja" (mkTime 1954 0) (86 # 10) "p" "b"
    (Some ["Action"; "Drama"]) 0 zero_time.

Definition row1 : row :=
  mkRow 1 now0 "Seven Samurai" "Bandits." "ja" (mkTime 1954 0) (86 # 10) "p" "b"
    ["Action"; "Drama"] 1.

Definition row2 : row :=
  mkRow 2 now0 "Ikiru" "A clerk." "ja" (mkTime 1952 0) (83 # 10) "p" "b"
    ["Drama"] 3.

Definition store0 : store := mkStore [row1; row2] 3 now0 0 None.

Definition filters0 : Filters := mkFilters 1 20 "-title" ["id"; "title"; "-title"].

Definition movie_stale : Movie :=
  mkMovie 2 "Ikiru" "A clerk." "ja" (mkTime 1952 0) (83 # 10) "p" "b"
    (Some ["Drama"%string]) 2 now0.

Definition filters_page2 : Filters := mkFilters 2 20 "title" ["title"%string].

Definition movie_nil_genres : Movie :=
  mkMovie 0 "Rashomon" "A crime." "ja" (mkTime 1950 0) (82 # 10) "p" "b"
    None 0 zero_time.

Definition movie_six_genres : Movie :=
  mkMovie 0 "Ran" "A lord." "ja" (mkTime 1985 0) (82 # 10) "p" "b"
    (Some ["Action"; "Drama"; "War"; "History"; "Epic"; "Tragedy"]) 0 zero_time.

Definition store_max : store :=
  mkStore [mkRow 9 now0 "Ran" "" "" (mkTime 1985 0) 0 "" "" ["War"] int4_max] 10 now0 0 None.

Definition movie_max : Movie :=
  mkMovie 9 "Ran" "" "" (mkTime 1985 0) 0 "" "" (Some ["War"]) int4_max now0.

Definition filters_small : Filters := mkFilters 1 1 "title" ["title"].

End Samples.

Example ex_getall :
  GetAll (pg_select store0) "" (Some ["Drama"%string]) filters0
  = GA_return (Some [movie_of_row row1; movie_of_row row2])
      (mkMetadata 1 20 1 1 2) None.
Proof. reflexivity. Qed.

Example ex_getall_title :
  GetAll (pg_select store0) "SAMURAI" (Some []) filters0
  = GA_return (Some [movie_of_row row1]) (mkMetadata 1 20 1 1 1) None.
Proof. reflexivity. Qed.

Example ex_validate :
  Errors (ValidateMovie now0 (mkValidator []) movie0) = [].
Proof. reflexivity. Qed.

Example ex_update :
  snd (Update store0 (movie_of_row row2)) = None
  /\ Version (snd (fst (Update store0 (movie_of_row row2)))) = 4.
Proof. split; reflexivity. Qed.

(** * Properties *)

(** ** Helper lemmas *)

Lemma Check_errors (v : Validator) (ok : bool) (key message : string) :
  Errors (Check v ok key message) = Errors v ++ (if ok then [] else [(key, message)]).
Proof. unfold Check, AddError; destruct ok; simpl; [rewrite app_nil_r|]; reflexivity. Qed.

Lemma ceil_div_Qceiling (t p : Z) :
  - ((- t) / p) = Qceiling (inject_Z t / inject_Z p).
Proof.
  unfold Qceiling, Qfloor, inject_Z, Qdiv, Qinv, Qmult, Qopp; simpl.
  destruct p as [|p|p]; simpl.
  - rewrite Z.div_0_r, Z.mul_0_r; reflexivity.
  - rewrite Z.mul_1_r; reflexivity.
  - f_equal. replace (t * -1) with (- t) by lia. rewrite Z.opp_involutive.
    change (Z.neg p) with (- Z.pos p). apply Z.div_opp_opp. discriminate.
Qed.

(** ** C9 *)

(** C9: [calculateMetadata 0 page pageSize] is the all-zero metadata for
    every page and page size; for a positive total it has first page 1 and
    last page [ceil(totalRecords / pageSize)]; [calculateMetadata 17 2 5]
    has first page 1 and last page 4. *)
Theorem calculateMetadata_spec :
  (forall page pageSize, calculateMetadata 0 page pageSize = Metadata_zero)
  /\ (forall totalRecords page pageSize, 0 < totalRecords ->
        FirstPage (calculateMetadata totalRecords page pageSize) = 1
        /\ LastPage (calculateMetadata totalRecords page pageSize)
           = Qceiling (inject_Z totalRecords / inject_Z pageSize))
  /\ FirstPage (calculateMetadata 17 2 5) = 1
  /\ LastPage (calculateMetadata 17 2 5) = 4.
Proof.
  split; [reflexivity|].
  split; [|split; reflexivity].
  intros t page ps Ht. unfold calculateMetadata.
  destruct (Z.eqb_spec t 0) as [->|_]; [lia|].
  split; [reflexivity|]. apply ceil_div_Qceiling.
Qed.

Lemma calculateMetadata_spec_witness :
  0 < 17 /\ FirstPage (calculateMetadata 17 3 4) = 1
  /\ LastPage (calculateMetadata 17 3 4) = Qceiling (inject_Z 17 / inject_Z 4).
Proof.
  split; [lia|].
  apply (proj1 (proj2 calculateMetadata_spec) 17 3 4). lia.
Defined.

(** ** C2 *)

(** C2: for every id <= 0, [Get] and [Delete] return [ErrRecordNotFound]
    and hand back the store untouched: no round trip is made. *)
Theorem Get_Delete_nonpositive_id (st : store) (id : Z) (Hid : id <= 0) :
  Get st id = (st, None, Some ErrRecordNotFound)
  /\ Delete st id = (st, Some ErrRecordNotFound).
Proof.
  unfold Get, Delete.
  replace (id <? 1) with true by (symmetry; apply Z.ltb_lt; lia).
  split; reflexivity.
Qed.

Lemma Get_Delete_nonpositive_id_witness :
  0 <= 0 /\ Get store0 0 = (store0, None, Some ErrRecordNotFound)
  /\ Delete store0 0 = (store0, Some ErrRecordNotFound).
Proof. split; [lia|]. apply Get_Delete_nonpositive_id. lia. Defined.

(** With a positive id both make exactly one round trip. *)
Lemma Get_Delete_positive_id_trip (st : store) (id : Z) :
  1 <= id ->
  st_trips (fst (fst (Get st id))) = S (st_trips st)
  /\ st_trips (fst (Delete st id)) = S (st_trips st).
Proof.
  intros Hid. unfold Get, Delete.
  replace (id <? 1) with false by (symmetry; apply Z.ltb_ge; lia).
  unfold pg_select_by_id, pg_delete; simpl.
  destruct (st_fail st); simpl.
  - split; reflexivity.
  - split.
    + destruct (find _ _); reflexivity.
    + match goal with |- context [if ?b then _ else _] => destruct b end;
      reflexivity.
Qed.

(** ** C1 *)

(** C1: when the conditional write matches no row ([sql.ErrNoRows]),
    [Update] returns [ErrEditConflict]; this happens whenever no stored row
    has the caller's id and version (stale version or absent id); any other
    store error is returned unchanged; [Update] never returns
    [ErrRecordNotFound]. *)
Theorem Update_no_rows_is_edit_conflict (st : store) (movie : Movie) :
  (snd (pg_update st movie) = inl ErrNoRows ->
   snd (Update st movie) = Some ErrEditConflict)
  /\ (forall msg, snd (pg_update st movie) = inl (DbErr msg) ->
        snd (Update st movie) = Some (StoreErr (DbErr msg)))
  /\ (st_fail st = None ->
      (forall r, In r (st_rows st) -> r_id r = ID movie -> r_version r <> Version movie) ->
      snd (Update st movie) = Some ErrEditConflict)
  /\ snd (Update st movie) <> Some ErrRecordNotFound.
Proof.
  unfold Update. destruct (pg_update st movie) as [st' res] eqn:E. simpl.
  split; [intros ->; reflexivity|].
  split; [intros msg ->; reflexivity|].
  split.
  - intros Hf Hstale.
    assert (res = inl ErrNoRows) as ->; [|reflexivity].
    unfold pg_update in E. simpl in E. rewrite Hf in E.
    destruct (existsb _ _) eqn:Ex.
    + apply existsb_exists in Ex. destruct Ex as [r [Hin Hhit]].
      apply andb_true_iff in Hhit as [H1 H2].
      apply Z.eqb_eq in H1, H2. exfalso; exact (Hstale r Hin H1 H2).
    + simpl in E. congruence.
  - destruct res as [[|msg]|v]; discriminate.
Qed.

Lemma Update_no_rows_is_edit_conflict_witness :
  snd (Update store0 movie_stale) = Some ErrEditConflict
  /\ snd (Update store0 movie_stale) = Some ErrEditConflict.
Proof.
  split.
  - apply (proj1 (Update_no_rows_is_edit_conflict store0 movie_stale)).
    reflexivity.
  - apply (proj1 (proj2 (proj2 (Update_no_rows_is_edit_conflict store0 movie_stale)))).
    + reflexivity.
    + intros r Hin Hid. simpl in Hin.
      destruct Hin as [<-|[<-|[]]]; simpl in *; discriminate.
Defined.

(** ** C3 *)

Lemma find_unique_key (l : list row) (x : row) (k : Z) :
  NoDup (map r_id l) -> In x l -> r_id x = k ->
  find (fun r => r_id r =? k) l = Some x.
Proof.
  induction l as [|y l IH]; simpl; intros Hnd Hin Hk; [contradiction|].
  inversion Hnd as [|? ? Hnotin Hnd']; subst.
  destruct Hin as [->|Hin].
  - rewrite Z.eqb_refl; reflexivity.
  - destruct (Z.eqb_spec (r_id y) (r_id x)) as [E|E].
    + exfalso. apply Hnotin. rewrite E. apply in_map; assumption.
    + apply IH; auto.
Qed.

Lemma find_map_key (f : row -> row) (k : Z) (l : list row) :
  (forall r, r_id (f r) = r_id r) ->
  find (fun r => r_id r =? k) (map f l) = option_map f (find (fun r => r_id r =? k) l).
Proof.
  intros Hf; induction l as [|y l IH]; simpl; [reflexivity|].
  rewrite Hf. destruct (r_id y =? k); [reflexivity|exact IH].
Qed.

(** C3: when [Update] succeeds, the stored row with the caller's id had the
    caller's version, its stored version is now exactly one more, and the
    caller's [Version] equals the new stored version. *)
Theorem Update_success_version (st st' : store) (movie movie' : Movie) :
  NoDup (map r_id (st_rows st)) ->
  Update st movie = (st', movie', None) ->
  exists r r',
    find (fun r => r_id r =? ID movie) (st_rows st) = Some r
    /\ find (fun r => r_id r =? ID movie) (st_rows st') = Some r'
    /\ r_version r = Version movie
    /\ r_version r' = r_version r + 1
    /\ Version movie' = r_version r'.
Proof.
  intros Hnd H. unfold Update, pg_update in H. simpl in H.
  destruct (st_fail st); [discriminate|].
  destruct (existsb _ _) eqn:Ex; simpl in H; [|discriminate].
  destruct (Version movie =? int4_max); [discriminate|].
  destruct (pq_array (Genres movie)) as [gs|]; [|discriminate].
  destruct (negb (release_date_check _ _)); [discriminate|].
  destruct (negb (genres_length_check gs)); [discriminate|].
  injection H as <- <-.
  apply existsb_exists in Ex. destruct Ex as [x [Hin Hhit]].
  pose proof Hhit as Hhit'.
  apply andb_true_iff in Hhit' as [H1 H2]. apply Z.eqb_eq in H1, H2.
  exists x. eexists. split; [|split; [|split; [exact H2|split]]].
  - apply find_unique_key; assumption.
  - simpl. rewrite find_map_key.
    + rewrite (find_unique_key _ x) by assumption. simpl. reflexivity.
    + intros r. destruct ((r_id r =? ID movie) && (r_version r =? Version movie)); reflexivity.
  - simpl. rewrite Hhit. reflexivity.
  - simpl. rewrite Hhit. simpl. lia.
Qed.

Lemma Update_success_version_witness :
  NoDup (map r_id (st_rows store0))
  /\ exists r r',
    find (fun r => r_id r =? 2) (st_rows store0) = Some r
    /\ find (fun r => r_id r =? 2) (st_rows (fst (fst (Update store0 (movie_of_row row2))))) = Some r'
    /\ r_version r = 3
    /\ r_version r' = r_version r + 1
    /\ Version (snd (fst (Update store0 (movie_of_row row2)))) = r_version r'.
Proof.
  assert (Hnd : NoDup (map r_id (st_rows store0))).
  { simpl. constructor; [simpl; intros [H|[]]; discriminate|].
    constructor; [simpl; tauto|constructor]. }
  split; [exact Hnd|].
  exact (Update_success_version store0 (fst (fst (Update store0 (movie_of_row row2))))
           (movie_of_row row2) (snd (fst (Update store0 (movie_of_row row2)))) Hnd eq_refl).
Defined.

(** ** C7 *)

(** C7: after a successful [Insert] the caller's movie has a positive id
    that no stored row had before and the new row has, a populated creation
    timestamp, version 1, and all its other fields as they were. *)
Theorem Insert_success (st st' : store) (movie movie' : Movie) :
  store_ok st ->
  Insert st movie = (st', movie', None) ->
  0 < ID movie'
  /\ ~ In (ID movie') (map r_id (st_rows st))
  /\ In (ID movie') (map r_id (st_rows st'))
  /\ CreatedAt movie' = st_now st
  /\ IsZero (CreatedAt movie') = false
  /\ Version movie' = 1
  /\ Title movie' = Title movie
  /\ Overview movie' = Overview movie
  /\ Language movie' = Language movie
  /\ ReleaseDate movie' = ReleaseDate movie
  /\ Rating movie' = Rating movie
  /\ PosterURL movie' = PosterURL movie
  /\ BackdropURL movie' = BackdropURL movie
  /\ Genres movie' = Genres movie.
Proof.
  intros [Hpos [Hlt Hnow]] H. unfold Insert, pg_insert in H. simpl in H.
  destruct (st_fail st); [discriminate|].
  destruct (pq_array (Genres movie)) as [gs|]; [|discriminate].
  destruct (negb (release_date_check _ _)); [discriminate|].
  destruct (negb (genres_length_check gs)); [discriminate|].
  injection H as <- <-. simpl.
  split; [exact Hpos|].
  split.
  { rewrite in_map_iff. intros [r [Hr Hin]].
    rewrite Forall_forall in Hlt. specialize (Hlt r Hin). lia. }
  split.
  { rewrite map_app, in_app_iff. right. simpl. left. reflexivity. }
  repeat split; assumption.
Qed.

Lemma Insert_success_witness :
  store_ok store0
  /\ 0 < ID (snd (fst (Insert store0 movie0)))
  /\ ~ In (ID (snd (fst (Insert store0 movie0)))) (map r_id (st_rows store0)).
Proof.
  assert (Hok : store_ok store0).
  { split; [reflexivity|split; [|reflexivity]].
    apply Forall_forall. intros r [<-|[<-|[]]]; reflexivity. }
  destruct (Insert_success store0 (fst (fst (Insert store0 movie0))) movie0
              (snd (fst (Insert store0 movie0))) Hok eq_refl) as [H1 [H2 _]].
  split; [exact Hok|split; assumption].
Defined.

(** ** C8 *)

Lemma filter_keeps_all (l : list row) (id : Z) :
  (forall r, In r l -> r_id r <> id) ->
  filter (fun r => negb (r_id r =? id)) l = l.
Proof.
  induction l as [|y l IH]; simpl; intros Hl; [reflexivity|].
  destruct (Z.eqb_spec (r_id y) id) as [E|E].
  - exfalso. exact (Hl y (or_introl eq_refl) E).
  - simpl. rewrite IH; [reflexivity|]. intros r Hr. apply Hl. right. exact Hr.
Qed.

(** C8: for an id >= 1, an execution error (or a failing [RowsAffected])
    is returned unchanged, zero affected rows give [ErrRecordNotFound] (as
    they do whenever the id is absent), and one affected row gives no
    error. *)
Theorem Delete_results (st : store) (id : Z) (Hid : 1 <= id) :
  (forall e, snd (pg_delete st id) = inl e -> snd (Delete st id) = Some (StoreErr e))
  /\ (forall e, snd (pg_delete st id) = inr (inl e) -> snd (Delete st id) = Some (StoreErr e))
  /\ (snd (pg_delete st id) = inr (inr 0) -> snd (Delete st id) = Some ErrRecordNotFound)
  /\ (snd (pg_delete st id) = inr (inr 1) -> snd (Delete st id) = None)
  /\ (st_fail st = None -> ~ In id (map r_id (st_rows st)) ->
      snd (Delete st id) = Some ErrRecordNotFound).
Proof.
  unfold Delete.
  replace (id <? 1) with false by (symmetry; apply Z.ltb_ge; lia).
  destruct (pg_delete st id) as [st' res] eqn:E. simpl.
  split; [intros e ->; reflexivity|].
  split; [intros e ->; reflexivity|].
  split; [intros ->; reflexivity|].
  split; [intros ->; reflexivity|].
  intros Hf Habs. unfold pg_delete in E. simpl in E. rewrite Hf in E.
  rewrite filter_keeps_all in E.
  - injection E as _ <-. rewrite Z.sub_diag. reflexivity.
  - intros r Hr Hrid. apply Habs. rewrite <- Hrid. apply in_map. exact Hr.
Qed.

Lemma Delete_results_witness :
  1 <= 7 /\ snd (Delete store0 7) = Some ErrRecordNotFound
  /\ snd (Delete store0 2) = None.
Proof.
  split; [lia|]. split.
  - apply (proj2 (proj2 (proj2 (proj2 (Delete_results store0 7 ltac:(lia)))))).
    + reflexivity.
    + simpl. intros [H|[H|[]]]; discriminate.
  - apply (proj1 (proj2 (proj2 (proj2 (Delete_results store0 2 ltac:(lia)))))).
    reflexivity.
Defined.

(** ** C5 *)

Lemma last_cons {A} (x : A) (l : list A) (d : A) : last (x :: l) d = last l x.
Proof.
  revert x d. induction l as [|y l IH]; intros x d; [reflexivity|].
  change (last (x :: y :: l) d) with (last (y :: l) d).
  rewrite IH. symmetry. apply IH.
Qed.

Lemma scan_rows_ok (rows : list result_row) (t : Z) (acc : list Movie) :
  scan_rows (map inr rows) t acc
  = inr (last (map rr_count rows) t,
         acc ++ map (fun r => movie_of_row (rr_row r)) rows).
Proof.
  revert t acc. induction rows as [|r rows IH]; intros t acc.
  - simpl. rewrite app_nil_r. reflexivity.
  - cbn [map scan_rows]. rewrite IH, <- app_assoc, (last_cons (rr_count r)).
    reflexivity.
Qed.

Lemma scan_rows_err (pre : list result_row) (e : db_error)
    (post : list (db_error + result_row)) (t : Z) (acc : list Movie) :
  scan_rows (map inr pre ++ inl e :: post) t acc = inl e.
Proof.
  revert t acc. induction pre as [|r pre IH]; intros t acc; simpl; [reflexivity|].
  apply IH.
Qed.

(** C5: once the sort column resolves, an execution error, a row whose
    mapping fails, or an iteration error makes [GetAll] fail with that error
    and a nil slice; otherwise it returns a non-nil slice of all the rows'
    movies, in order (empty when there are none), with the metadata
    [calculateMetadata] gives for the count carried by the rows (0 when
    there are none), the requested page and page size. *)
Theorem GetAll_all_or_nothing (query : select_query -> db_error + cursor)
    (title : string) (genres : slice string) (filters : Filters) (col : string) :
  sortColumn filters = Some col ->
  (forall e, query (getall_query title genres filters col) = inl e ->
     GetAll query title genres filters = GA_return None Metadata_zero (Some (StoreErr e)))
  /\ (forall pre e post rows_err,
        query (getall_query title genres filters col)
          = inr (map inr pre ++ inl e :: post, rows_err) ->
        GetAll query title genres filters = GA_return None Metadata_zero (Some (StoreErr e)))
  /\ (forall rows e,
        query (getall_query title genres filters col) = inr (map inr rows, Some e) ->
        GetAll query title genres filters = GA_return None Metadata_zero (Some (StoreErr e)))
  /\ (forall rows,
        query (getall_query title genres filters col) = inr (map inr rows, None) ->
        GetAll query title genres filters
        = GA_return (Some (map (fun r => movie_of_row (rr_row r)) rows))
            (calculateMetadata (last (map rr_count rows) 0) (Page filters) (PageSize filters))
            None).
Proof.
  intros Hcol. unfold GetAll. rewrite Hcol.
  split; [intros e ->; reflexivity|].
  split; [intros pre e post rows_err ->; rewrite scan_rows_err; reflexivity|].
  split; [intros rows e ->; rewrite scan_rows_ok; reflexivity|].
  intros rows ->. rewrite scan_rows_ok. reflexivity.
Qed.

Lemma GetAll_all_or_nothing_witness :
  sortColumn filters0 = Some "title"%string
  /\ GetAll (fun _ => inr ([inr (mkResult 2 row1); inl (DbErr "bad"); inr (mkResult 2 row2)], None))
       "" None filters0
     = GA_return None Metadata_zero (Some (StoreErr (DbErr "bad"))).
Proof.
  split; [reflexivity|].
  apply (proj1 (proj2 (GetAll_all_or_nothing
    (fun _ => inr ([inr (mkResult 2 row1); inl (DbErr "bad"); inr (mkResult 2 row2)], None))
    "" None filters0 "title" eq_refl)) [mkResult 2 row1] (DbErr "bad") [inr (mkResult 2 row2)] None).
  reflexivity.
Defined.

(** ** C10 *)

(** C10: when the executed query returns no rows (and no error), [GetAll]
    returns an empty, non-nil slice and the all-zero metadata, whatever the
    number of matching rows in storage. *)
Theorem GetAll_no_rows_zero_metadata (query : select_query -> db_error + cursor)
    (title : string) (genres : slice string) (filters : Filters) (col : string) :
  sortColumn filters = Some col ->
  query (getall_query title genres filters col) = inr ([], None) ->
  GetAll query title genres filters = GA_return (Some []) Metadata_zero None.
Proof.
  intros Hcol Hq. unfold GetAll. rewrite Hcol, Hq. reflexivity.
Qed.

(** On page 2 of 20 both matching rows of [store0] lie before the offset. *)
Lemma GetAll_no_rows_zero_metadata_witness :
  List.length (filter (selected (getall_query "" (Some []) filters_page2 "title"))
                 (st_rows store0)) = 2%nat
  /\ GetAll (pg_select store0) "" (Some []) filters_page2
     = GA_return (Some []) Metadata_zero None.
Proof.
  split; [reflexivity|].
  apply (GetAll_no_rows_zero_metadata (pg_select store0) "" (Some []) filters_page2 "title");
    reflexivity.
Defined.

(** ** C4 *)

(** A nil genre filter is sent as NULL: [genres @> NULL OR NULL = '{}'] is
    NULL and no row is selected. *)
Lemma selected_nil_genres (q : select_query) (r : row) :
  sq_genres q = None -> selected q r = false.
Proof.
  intros H. unfold selected, where_clause. rewrite H. simpl.
  destruct (ts_match (r_title r) (sq_title q)), (String.eqb (sq_title q) "");
    reflexivity.
Qed.

(** With a non-nil genre filter the [WHERE] clause selects the rows whose
    title matches the query (every row for an empty query) and whose genres
    contain every genre of the filter. *)
Lemma selected_non_nil_genres (q : select_query) (gf : list string) (r : row) :
  sq_genres q = Some gf ->
  selected q r
  = (ts_match (r_title r) (sq_title q) || String.eqb (sq_title q) "")
    && forallb (fun g => existsb (String.eqb g) (r_genres r)) gf.
Proof.
  intros H. unfold selected, where_clause. rewrite H. simpl.
  destruct (ts_match (r_title r) (sq_title q)), (String.eqb (sq_title q) ""),
    gf as [|g gf]; simpl; try reflexivity;
    destruct (existsb (String.eqb g) (r_genres r) && _); reflexivity.
Qed.

(** C4: [GetAll] with an empty title query and a nil genre filter returns no
    movie although [store0] holds two rows, while the same call with an
    empty non-nil filter returns both, ordered by title descending. *)
Theorem GetAll_nil_genre_filter :
  GetAll (pg_select store0) "" None filters0 = GA_return (Some []) Metadata_zero None
  /\ GetAll (pg_select store0) "" (Some []) filters0
     = GA_return (Some [movie_of_row row1; movie_of_row row2]) (mkMetadata 1 20 1 1 2) None.
Proof. split; reflexivity. Qed.

(** ** C6 *)

Lemma IsZero_false_iff (t : time) : IsZero t = false <-> t <> zero_time.
Proof.
  destruct t as [y s]. unfold IsZero, zero_time. simpl.
  rewrite andb_false_iff, !Z.eqb_neq. split.
  - intros [H|H] E; injection E; lia.
  - intros H. destruct (Z.eq_dec y 1) as [->|Hy]; [|left; exact Hy].
    right. intros ->. apply H. reflexivity.
Qed.

Lemma Unique_NoDup (l : list string) : Unique l = true <-> NoDup l.
Proof.
  induction l as [|x l IH]; simpl.
  - split; [constructor|reflexivity].
  - rewrite andb_true_iff, negb_true_iff, IH. split.
    + intros [Hx Hl]. constructor; [|exact Hl].
      intros Hin. assert (existsb (String.eqb x) l = true) as E
        by (apply existsb_exists; exists x; split; [exact Hin|apply String.eqb_refl]).
      congruence.
    + intros Hnd. inversion Hnd as [|? ? Hnotin Hl]; subst. split; [|exact Hl].
      destruct (existsb (String.eqb x) l) eqn:E; [|reflexivity].
      apply existsb_exists in E. destruct E as [y [Hy Hxy]].
      apply String.eqb_eq in Hxy. subst. contradiction.
Qed.

Lemma ValidateMovie_run_checks (now : time) (v : Validator) (movie : Movie) :
  ValidateMovie now v movie = run_checks v (validate_checks now movie).
Proof. reflexivity. Qed.

Lemma run_checks_errors (v : Validator) (cs : list (bool * string * string)) :
  Errors (run_checks v cs) = Errors v ++ check_errors cs.
Proof.
  revert v. induction cs as [|c cs IH]; intros v; simpl.
  - rewrite app_nil_r. reflexivity.
  - rewrite IH, Check_errors, <- app_assoc. reflexivity.
Qed.

Lemma check_errors_fields (cs : list (bool * string * string)) :
  map fst (check_errors cs)
  = violations (map (fun c => (fst (fst c), snd (fst c))) cs).
Proof.
  unfold violations. induction cs as [|[[b k] m] cs IH]; simpl; [reflexivity|].
  destruct b; simpl; rewrite IH; reflexivity.
Qed.

Lemma check_errors_nil (cs : list (bool * string * string)) :
  check_errors cs = [] <-> forallb (fun c => fst (fst c)) cs = true.
Proof.
  induction cs as [|[[b k] m] cs IH]; simpl; [tauto|].
  destruct b; simpl; [exact IH|]. split; discriminate.
Qed.

Lemma validate_checks_ok (now : time) (movie : Movie) :
  forallb (fun c => fst (fst c)) (validate_checks now movie) = true
  <-> movie_valid now movie.
Proof.
  unfold validate_checks, movie_valid. simpl.
  rewrite !andb_true_iff, negb_true_iff, String.eqb_neq, Z.leb_le,
    negb_true_iff, IsZero_false_iff, Z.geb_le.
  destruct (Genres movie) as [gs|]; simpl.
  - rewrite Z.geb_le, Z.leb_le, Unique_NoDup. split.
    + intros (H1 & H2 & H3 & H4 & H5 & _ & H7 & H8 & H9 & _).
      repeat split; try assumption; try lia.
      exists gs. repeat split; try assumption; lia.
    + intros (H1 & H2 & H3 & H4 & H5 & g & Hg & [H7 H8] & H9).
      injection Hg as <-. repeat split; try assumption; lia.
  - split.
    + intros (_ & _ & _ & _ & _ & H & _). discriminate.
    + intros (_ & _ & _ & _ & _ & g & Hg & _). discriminate.
Qed.

(** C6: [ValidateMovie] never fails and only appends to the shared
    validator: one violation per failed rule, recorded under that rule's
    field, every rule evaluated; it appends nothing exactly when the movie
    satisfies all the rules. *)
Theorem ValidateMovie_accumulates (now : time) (v : Validator) (movie : Movie) :
  exists added,
    Errors (ValidateMovie now v movie) = Errors v ++ added
    /\ map fst added = violations (movie_rules now movie)
    /\ List.length added = List.length (violations (movie_rules now movie))
    /\ (added = [] <-> movie_valid now movie).
Proof.
  exists (check_errors (validate_checks now movie)).
  rewrite ValidateMovie_run_checks, run_checks_errors.
  assert (Hf : map fst (check_errors (validate_checks now movie))
               = violations (movie_rules now movie))
    by (rewrite check_errors_fields; reflexivity).
  split; [reflexivity|]. split; [exact Hf|]. split.
  - rewrite <- Hf, length_map. reflexivity.
  - rewrite check_errors_nil. apply validate_checks_ok.
Qed.

(** ** The PostgreSQL answer past the last page *)

Lemma insert_by_length {A} (cmp : A -> A -> comparison) (x : A) (l : list A) :
  List.length (insert_by cmp x l) = S (List.length l).
Proof.
  induction l as [|y l IH]; simpl; [reflexivity|].
  destruct (cmp x y); simpl; rewrite ?IH; reflexivity.
Qed.

Lemma sort_by_length {A} (cmp : A -> A -> comparison) (l : list A) :
  List.length (sort_by cmp l) = List.length l.
Proof.
  induction l as [|x l IH]; simpl; [reflexivity|].
  rewrite insert_by_length, IH. reflexivity.
Qed.

(** An offset at or past the number of matching rows gives an empty answer,
    however many rows match. *)
Lemma pg_select_past_end (st : store) (q : select_query) :
  st_fail st = None ->
  column_exists (sq_col q) = true ->
  0 <= sq_limit q ->
  Z.of_nat (List.length (filter (selected q) (st_rows st))) <= sq_offset q ->
  pg_select st q = inr ([], None).
Proof.
  intros Hf Hc Hl Ho. unfold pg_select. rewrite Hf, Hc. simpl.
  replace (sq_limit q <? 0) with false by (symmetry; apply Z.ltb_ge; lia).
  replace (sq_offset q <? 0) with false by (symmetry; apply Z.ltb_ge; lia).
  rewrite skipn_all2; [rewrite firstn_nil; reflexivity|].
  rewrite sort_by_length. lia.
Qed.

(** * Further properties of the repository *)

Lemma find_app_none_l {A} (p : A -> bool) (l1 l2 : list A) :
  (forall x, In x l1 -> p x = false) -> find p (l1 ++ l2) = find p l2.
Proof.
  induction l1 as [|y l1 IH]; simpl; intros H; [reflexivity|].
  rewrite (H y (or_introl eq_refl)). apply IH. intros x Hx. apply H. right. exact Hx.
Qed.

(** A successful [Insert] followed by [Get] of the assigned id reads back
    the caller's fields, the release date cut to the day, version 1 and the
    creation time the server stamped. *)
Theorem Insert_then_Get (st st1 : store) (movie movie' : Movie) :
  store_ok st ->
  Insert st movie = (st1, movie', None) ->
  exists st2,
    Get st1 (ID movie')
    = (st2, Some (mkMovie (ID movie') (Title movie) (Overview movie) (Language movie)
                    (to_date (ReleaseDate movie)) (Rating movie) (PosterURL movie)
                    (BackdropURL movie) (Genres movie) 1 (st_now st)), None).
Proof.
  intros [Hpos [Hlt _]] H. unfold Insert, pg_insert, pq_array in H. simpl in H.
  destruct (st_fail st) eqn:Hf; [discriminate|].
  destruct (Genres movie) as [gs|] eqn:Hg; [|discriminate].
  destruct (negb (release_date_check _ _)); [discriminate|].
  destruct (negb (genres_length_check gs)); [discriminate|].
  injection H as <- <-. eexists. unfold Get, pg_select_by_id. simpl.
  replace (st_next_id st <? 1) with false by (symmetry; apply Z.ltb_ge; lia).
  rewrite Hf. rewrite find_app_none_l.
  - simpl. rewrite Z.eqb_refl. reflexivity.
  - intros r Hr. rewrite Forall_forall in Hlt. specialize (Hlt r Hr).
    apply Z.eqb_neq. lia.
Qed.

Lemma store0_ok : store_ok store0.
Proof.
  split; [reflexivity|split; [|reflexivity]].
  apply Forall_forall. intros r [<-|[<-|[]]]; reflexivity.
Qed.

Lemma Insert_then_Get_witness :
  exists st2,
    Get (fst (fst (Insert store0 movie0))) (ID (snd (fst (Insert store0 movie0))))
    = (st2, Some (mkMovie (ID (snd (fst (Insert store0 movie0)))) (Title movie0)
                    (Overview movie0) (Language movie0) (to_date (ReleaseDate movie0))
                    (Rating movie0) (PosterURL movie0) (BackdropURL movie0)
                    (Genres movie0) 1 (st_now store0)), None).
Proof.
  apply (Insert_then_Get store0 (fst (fst (Insert store0 movie0))) movie0
           (snd (fst (Insert store0 movie0))) store0_ok eq_refl).
Defined.

(** [Insert] with a nil genre slice always fails (pq sends NULL into the
    NOT NULL column): the caller's movie is untouched and no row is
    added. *)
Theorem Insert_nil_genres_fails (st st' : store) (movie movie' : Movie) (e : option goerr) :
  st_fail st = None ->
  Genres movie = None ->
  Insert st movie = (st', movie', e) ->
  e = Some (StoreErr (DbErr "null value in column genres"))
  /\ movie' = movie /\ st_rows st' = st_rows st.
Proof.
  intros Hf Hg H. unfold Insert, pg_insert, pq_array in H. simpl in H.
  rewrite Hf, Hg in H. injection H as <- <- <-. repeat split.
Qed.

Lemma Insert_nil_genres_fails_witness :
  snd (Insert store0 movie_nil_genres)
  = Some (StoreErr (DbErr "null value in column genres")).
Proof.
  destruct (Insert store0 movie_nil_genres) as [[st' m'] e] eqn:E.
  destruct (Insert_nil_genres_fails store0 st' movie_nil_genres m' e eq_refl eq_refl E)
    as [-> _].
  reflexivity.
Defined.

(** A movie with 6 to 10 distinct genres gets no genre violation from
    [ValidateMovie], yet [Insert] rejects it with the table's
    [genres_length_check] (at most 5) and adds no row. *)
Theorem validated_genres_rejected_by_schema (now : time) (st st' : store)
    (movie movie' : Movie) (gs : list string) (e : option goerr) :
  st_fail st = None ->
  Genres movie = Some gs ->
  (5 < List.length gs <= 10)%nat ->
  NoDup gs ->
  release_date_check (st_now st) (ReleaseDate movie) = true ->
  Insert st movie = (st', movie', e) ->
  ~ In "genres"%string (violations (movie_rules now movie))
  /\ e = Some (StoreErr (DbErr "genres_length_check"))
  /\ st_rows st' = st_rows st.
Proof.
  intros Hf Hg Hlen Hnd Hrd H. split.
  - unfold violations, movie_rules, slice_len, slice_elems. rewrite Hg.
    apply Unique_NoDup in Hnd. rewrite Hnd.
    replace (Z.of_nat (List.length gs) >=? 1) with true
      by (symmetry; apply Z.geb_le; lia).
    replace (Z.of_nat (List.length gs) <=? 10) with true
      by (symmetry; apply Z.leb_le; lia).
    simpl.
    destruct (negb (String.eqb (Title movie) "")),
      (Z.of_nat (String.length (Title movie)) <=? 500),
      (negb (IsZero (ReleaseDate movie))),
      (Year (ReleaseDate movie) >=? 1888),
      (Before (ReleaseDate movie) now); simpl; intuition discriminate.
  - unfold Insert, pg_insert, pq_array in H. simpl in H.
    rewrite Hf, Hg, Hrd in H. simpl in H.
    destruct gs as [|g gs']; [simpl in Hlen; lia|].
    unfold genres_length_check in H.
    replace (Z.of_nat (List.length (g :: gs')) <=? 5) with false in H
      by (symmetry; apply Z.leb_gt; lia).
    rewrite andb_false_r in H. simpl in H.
    injection H as <- _ <-. split; reflexivity.
Qed.

Lemma validated_genres_rejected_by_schema_witness :
  ~ In "genres"%string (violations (movie_rules now0 movie_six_genres))
  /\ snd (Insert store0 movie_six_genres) = Some (StoreErr (DbErr "genres_length_check")).
Proof.
  destruct (Insert store0 movie_six_genres) as [[st' m'] e] eqn:E.
  destruct (validated_genres_rejected_by_schema now0 store0 st' movie_six_genres m'
              ["Action"; "Drama"; "War"; "History"; "Epic"; "Tragedy"]%string e
              eq_refl eq_refl ltac:(simpl; lia) ltac:(apply Unique_NoDup; reflexivity)
              eq_refl E) as [H1 [H2 _]].
  split; [exact H1|exact H2].
Defined.

Lemma Before_year (t u : time) : Before t u = true -> Year t <= Year u.
Proof.
  unfold Before, Year. rewrite orb_true_iff, andb_true_iff, Z.ltb_lt, Z.eqb_eq, Z.ltb_lt.
  intros [H|[H _]]; lia.
Qed.

(** A movie that passes every [ValidateMovie] rule at [now], with at most 5
    genres, is accepted by [Insert] whenever the server's year is not behind
    [now]'s and the server is up. *)
Theorem valid_movie_Insert_succeeds (now : time) (st : store) (movie : Movie) :
  st_fail st = None ->
  movie_valid now movie ->
  Year now <= Year (st_now st) ->
  slice_len (Genres movie) <= 5 ->
  exists st' movie', Insert st movie = (st', movie', None).
Proof.
  intros Hf (H1 & H2 & H3 & H4 & H5 & gs & Hg & Hlen & Hnd) Hyear Hle5.
  apply Before_year in H5.
  unfold slice_len in Hle5. rewrite Hg in Hle5.
  unfold Insert, pg_insert, pq_array. simpl. rewrite Hf, Hg.
  replace (release_date_check (st_now st) (ReleaseDate movie)) with true
    by (symmetry; unfold release_date_check; apply andb_true_iff;
        split; apply Z.leb_le; lia).
  replace (genres_length_check gs) with true
    by (symmetry; destruct gs as [|g gs']; [simpl in Hlen; lia|];
        unfold genres_length_check; apply andb_true_iff; split; apply Z.leb_le; lia).
  simpl. eexists. eexists. reflexivity.
Qed.

Lemma valid_movie_Insert_succeeds_witness :
  movie_valid now0 movie0
  /\ exists st' movie', Insert store0 movie0 = (st', movie', None).
Proof.
  assert (Hv : movie_valid now0 movie0).
  { apply validate_checks_ok. reflexivity. }
  split; [exact Hv|].
  apply (valid_movie_Insert_succeeds now0 store0 movie0 eq_refl Hv); simpl; lia.
Defined.

(** The conditional write matches nothing when no row has the caller's id
    and version. *)
Lemma pg_update_stale (st : store) (m : Movie) :
  st_fail st = None ->
  (forall r, In r (st_rows st) -> r_id r = ID m -> r_version r <> Version m) ->
  pg_update st m = (trip st, inl ErrNoRows).
Proof.
  intros Hf Hstale. unfold pg_update. simpl. rewrite Hf.
  destruct (existsb _ _) eqn:Ex; [|reflexivity].
  apply existsb_exists in Ex. destruct Ex as [r [Hin Hhit]].
  apply andb_true_iff in Hhit as [H1 H2]. apply Z.eqb_eq in H1, H2.
  exfalso. exact (Hstale r Hin H1 H2).
Qed.

(** A stale [Update] leaves the stored rows and the caller's movie as they
    were. *)
Theorem Update_stale_unchanged (st st' : store) (m m' : Movie) (e : option goerr) :
  st_fail st = None ->
  (forall r, In r (st_rows st) -> r_id r = ID m -> r_version r <> Version m) ->
  Update st m = (st', m', e) ->
  e = Some ErrEditConflict /\ m' = m /\ st_rows st' = st_rows st.
Proof.
  intros Hf Hstale H. unfold Update in H. rewrite pg_update_stale in H by assumption.
  injection H as <- <- <-. repeat split.
Qed.

Lemma Update_stale_unchanged_witness :
  snd (Update store0 movie_stale) = Some ErrEditConflict
  /\ st_rows (fst (fst (Update store0 movie_stale))) = st_rows store0.
Proof.
  destruct (Update store0 movie_stale) as [[st' m'] e] eqn:E.
  destruct (Update_stale_unchanged store0 st' movie_stale m' e eq_refl) as [H1 [_ H3]].
  - intros r Hin Hid. destruct Hin as [<-|[<-|[]]]; simpl in *; discriminate.
  - exact E.
  - split; assumption.
Defined.

(** A successful [Update] keeps every row's id and creation time, and every
    row other than the one with the caller's id and version stays as it
    was, at its place. *)
Theorem Update_frame (st st' : store) (m m' : Movie) :
  Update st m = (st', m', None) ->
  map r_id (st_rows st') = map r_id (st_rows st)
  /\ map r_created_at (st_rows st') = map r_created_at (st_rows st)
  /\ (forall i r, nth_error (st_rows st) i = Some r ->
        r_id r <> ID m \/ r_version r <> Version m ->
        nth_error (st_rows st') i = Some r).
Proof.
  intros H. unfold Update, pg_update in H. simpl in H.
  destruct (st_fail st); [discriminate|].
  destruct (existsb _ _) eqn:Ex; simpl in H; [|discriminate].
  destruct (Version m =? int4_max); [discriminate|].
  destruct (pq_array (Genres m)) as [gs|]; [|discriminate].
  destruct (negb (release_date_check _ _)); [discriminate|].
  destruct (negb (genres_length_check gs)); [discriminate|].
  injection H as <- _. simpl. rewrite !map_map.
  split; [|split].
  - apply map_ext. intros r.
    destruct ((r_id r =? ID m) && (r_version r =? Version m)); reflexivity.
  - apply map_ext. intros r.
    destruct ((r_id r =? ID m) && (r_version r =? Version m)); reflexivity.
  - intros i r Hi Hne. rewrite nth_error_map, Hi. simpl.
    replace ((r_id r =? ID m) && (r_version r =? Version m)) with false; [reflexivity|].
    symmetry. apply andb_false_iff.
    destruct Hne as [Hne|Hne]; [left|right]; apply Z.eqb_neq; exact Hne.
Qed.

Lemma Update_frame_witness :
  nth_error (st_rows (fst (fst (Update store0 (movie_of_row row2))))) 0 = Some row1.
Proof.
  destruct (Update store0 (movie_of_row row2)) as [[st' m'] e] eqn:E.
  assert (He : e = None) by (injection E; intros; subst; reflexivity). subst e.
  apply (proj2 (proj2 (Update_frame store0 st' (movie_of_row row2) m' E)) 0%nat row1).
  - reflexivity.
  - left. discriminate.
Defined.

(** After a successful [Update], [Get] of the movie's id reads back the
    caller's new fields (release date cut to the day), the new version, and
    the creation time the row already had. *)
Theorem Update_then_Get (st st' : store) (m m' : Movie) :
  NoDup (map r_id (st_rows st)) ->
  1 <= ID m ->
  Update st m = (st', m', None) ->
  exists r st'',
    find (fun r => r_id r =? ID m) (st_rows st) = Some r
    /\ Get st' (ID m)
       = (st'', Some (mkMovie (ID m) (Title m) (Overview m) (Language m)
                        (to_date (ReleaseDate m)) (Rating m) (PosterURL m)
                        (BackdropURL m) (Genres m) (Version m') (r_created_at r)), None).
Proof.
  intros Hnd Hid H. unfold Update, pg_update in H. simpl in H.
  destruct (st_fail st) eqn:Hf; [discriminate|].
  destruct (existsb _ _) eqn:Ex; simpl in H; [|discriminate].
  destruct (Version m =? int4_max); [discriminate|].
  unfold pq_array in H. destruct (Genres m) as [gs|] eqn:Hg; [|discriminate].
  destruct (negb (release_date_check _ _)); [discriminate|].
  destruct (negb (genres_length_check gs)); [discriminate|].
  injection H as <- <-.
  apply existsb_exists in Ex. destruct Ex as [x [Hin Hhit]].
  pose proof Hhit as Hhit'.
  apply andb_true_iff in Hhit' as [H1 H2]. apply Z.eqb_eq in H1, H2.
  exists x. eexists. split; [apply find_unique_key; assumption|].
  unfold Get, pg_select_by_id. simpl.
  replace (ID m <? 1) with false by (symmetry; apply Z.ltb_ge; lia).
  rewrite Hf, find_map_key.
  - rewrite (find_unique_key _ x) by assumption. simpl. rewrite Hhit.
    unfold movie_of_row. simpl. rewrite H1, H2. reflexivity.
  - intros r. destruct ((r_id r =? ID m) && (r_version r =? Version m)); reflexivity.
Qed.

Lemma store0_NoDup : NoDup (map r_id (st_rows store0)).
Proof.
  simpl. constructor; [simpl; intros [H|[]]; discriminate|].
  constructor; [simpl; tauto|constructor].
Qed.

Lemma Update_then_Get_witness :
  exists r st'',
    find (fun r => r_id r =? 2) (st_rows store0) = Some r
    /\ Get (fst (fst (Update store0 (movie_of_row row2)))) 2
       = (st'', Some (mkMovie 2 (r_title row2) (r_overview row2) (r_language row2)
                        (to_date (r_release_date row2)) (r_rating row2)
                        (r_poster_url row2) (r_backdrop_url row2) (Some (r_genres row2))
                        (Version (snd (fst (Update store0 (movie_of_row row2)))))
                        (r_created_at r)), None).
Proof.
  apply (Update_then_Get store0 (fst (fst (Update store0 (movie_of_row row2))))
           (movie_of_row row2) (snd (fst (Update store0 (movie_of_row row2))))
           store0_NoDup ltac:(simpl; lia) eq_refl).
Defined.

(** Replaying an [Update] that succeeded, with the same (now stale) movie,
    is an edit conflict and changes no row. *)
Theorem Update_replay_conflict (st st' st'' : store) (m m' m'' : Movie) (e : option goerr) :
  Update st m = (st', m', None) ->
  Update st' m = (st'', m'', e) ->
  e = Some ErrEditConflict /\ st_rows st'' = st_rows st'.
Proof.
  intros H H2. unfold Update, pg_update in H. simpl in H.
  destruct (st_fail st) eqn:Hf; [discriminate|].
  destruct (existsb _ _) eqn:Ex; simpl in H; [|discriminate].
  destruct (Version m =? int4_max); [discriminate|].
  destruct (pq_array (Genres m)) as [gs|]; [|discriminate].
  destruct (negb (release_date_check _ _)); [discriminate|].
  destruct (negb (genres_length_check gs)); [discriminate|].
  injection H as <- _.
  refine (match Update_stale_unchanged _ st'' m m'' e _ _ H2 with
          | conj He (conj _ Hr) => conj He Hr end).
  - simpl. exact Hf.
  - simpl. intros r' Hin Hid. apply in_map_iff in Hin. destruct Hin as [r [<- Hr]].
    destruct ((r_id r =? ID m) && (r_version r =? Version m)) eqn:Hhit; simpl.
    + apply andb_true_iff in Hhit as [_ Hv]. apply Z.eqb_eq in Hv. lia.
    + simpl in Hid. apply andb_false_iff in Hhit as [Hx|Hx];
        apply Z.eqb_neq in Hx; [contradiction|exact Hx].
Qed.

Lemma Update_replay_conflict_witness :
  snd (Update (fst (fst (Update store0 (movie_of_row row2)))) (movie_of_row row2))
  = Some ErrEditConflict.
Proof.
  destruct (Update (fst (fst (Update store0 (movie_of_row row2)))) (movie_of_row row2))
    as [[st'' m''] e] eqn:E.
  exact (proj1 (Update_replay_conflict store0 _ st'' (movie_of_row row2)
                  (snd (fst (Update store0 (movie_of_row row2)))) m'' e eq_refl E)).
Defined.

(** A row whose version has reached the top of the [integer] range can no
    longer be updated: [version + 1] fails, the error is passed through and
    nothing changes. *)
Theorem Update_version_overflow (st : store) (m : Movie) :
  st_fail st = None ->
  Version m = int4_max ->
  (exists r, In r (st_rows st) /\ r_id r = ID m /\ r_version r = Version m) ->
  Update st m = (trip st, m, Some (StoreErr (DbErr "integer out of range"))).
Proof.
  intros Hf Hv [r [Hin [H1 H2]]]. unfold Update, pg_update. simpl. rewrite Hf.
  replace (existsb _ _) with true.
  - simpl. rewrite Hv. reflexivity.
  - symmetry. apply existsb_exists. exists r. split; [exact Hin|].
    rewrite H1, H2, !Z.eqb_refl. reflexivity.
Qed.

Lemma Update_version_overflow_witness :
  Update store_max movie_max
  = (trip store_max, movie_max, Some (StoreErr (DbErr "integer out of range"))).
Proof.
  apply Update_version_overflow; [reflexivity|reflexivity|].
  eexists. split; [left; reflexivity|split; reflexivity].
Defined.

Lemma find_all_false {A} (p : A -> bool) (l : list A) :
  (forall x, In x l -> p x = false) -> find p l = None.
Proof.
  intros H. rewrite <- (app_nil_r l), find_app_none_l by exact H. reflexivity.
Qed.

(** After a successful [Delete] of an id, no row has that id, every other
    row is still stored, and [Get] of the id is [ErrRecordNotFound]. *)
Theorem Delete_then_Get (st st' : store) (id : Z) :
  1 <= id ->
  Delete st id = (st', None) ->
  ~ In id (map r_id (st_rows st'))
  /\ (forall r, In r (st_rows st) -> r_id r <> id -> In r (st_rows st'))
  /\ snd (Get st' id) = Some ErrRecordNotFound.
Proof.
  intros Hid H. unfold Delete in H.
  replace (id <? 1) with false in H by (symmetry; apply Z.ltb_ge; lia).
  unfold pg_delete in H. simpl in H.
  destruct (st_fail st) eqn:Hf; [discriminate|].
  destruct (_ =? 0); [discriminate|].
  injection H as <-. simpl.
  assert (Hin : forall r, In r (filter (fun r => negb (r_id r =? id)) (st_rows st)) ->
                r_id r <> id).
  { intros r Hr. apply filter_In in Hr as [_ Hr].
    apply negb_true_iff, Z.eqb_neq in Hr. exact Hr. }
  split; [|split].
  - intros Hm. apply in_map_iff in Hm as [r [Hr Hm]]. exact (Hin r Hm Hr).
  - intros r Hr Hne. apply filter_In. split; [exact Hr|].
    apply negb_true_iff, Z.eqb_neq. exact Hne.
  - unfold Get, pg_select_by_id. simpl.
    replace (id <? 1) with false by (symmetry; apply Z.ltb_ge; lia).
    rewrite Hf, find_all_false; [reflexivity|].
    intros r Hr. apply Z.eqb_neq. exact (Hin r Hr).
Qed.

Lemma Delete_then_Get_witness :
  snd (Get (fst (Delete store0 2)) 2) = Some ErrRecordNotFound.
Proof.
  exact (proj2 (proj2 (Delete_then_Get store0 (fst (Delete store0 2)) 2
                         ltac:(lia) eq_refl))).
Defined.

(** [Get] with a positive id: a store error is passed through, an absent id
    is [ErrRecordNotFound], a present id reads back its row, and the stored
    rows are never changed. *)
Theorem Get_results (st : store) (id : Z) :
  1 <= id ->
  (forall msg, st_fail st = Some msg -> snd (Get st id) = Some (StoreErr (DbErr msg)))
  /\ (st_fail st = None -> ~ In id (map r_id (st_rows st)) ->
      snd (Get st id) = Some ErrRecordNotFound)
  /\ (forall r, st_fail st = None -> NoDup (map r_id (st_rows st)) ->
        In r (st_rows st) -> r_id r = id ->
        snd (fst (Get st id)) = Some (movie_of_row r) /\ snd (Get st id) = None)
  /\ st_rows (fst (fst (Get st id))) = st_rows st.
Proof.
  intros Hid. unfold Get, pg_select_by_id. simpl.
  replace (id <? 1) with false by (symmetry; apply Z.ltb_ge; lia).
  split; [|split; [|split]].
  - intros msg ->. reflexivity.
  - intros Hf Habs. rewrite Hf, find_all_false; [reflexivity|].
    intros r Hr. apply Z.eqb_neq. intros E. apply Habs. rewrite <- E.
    apply in_map. exact Hr.
  - intros r Hf Hnd Hr Hrid. rewrite Hf, (find_unique_key _ r) by assumption.
    split; reflexivity.
  - destruct (st_fail st); [reflexivity|].
    destruct (find _ _); reflexivity.
Qed.

Lemma Get_results_witness :
  snd (Get store0 5) = Some ErrRecordNotFound
  /\ snd (fst (Get store0 1)) = Some (movie_of_row row1).
Proof.
  split.
  - apply (proj1 (proj2 (Get_results store0 5 ltac:(lia)))); [reflexivity|].
    simpl. intros [H|[H|[]]]; discriminate.
  - apply (proj1 (proj1 (proj2 (proj2 (Get_results store0 1 ltac:(lia)))) row1
                    eq_refl store0_NoDup (or_introl eq_refl) eq_refl)).
Defined.

Lemma In_insert_by {A} (cmp : A -> A -> comparison) (x y : A) (l : list A) :
  In y (insert_by cmp x l) -> y = x \/ In y l.
Proof.
  induction l as [|z l IH]; simpl; [intros [H|[]]; left; symmetry; exact H|].
  destruct (cmp x z); simpl; intros H.
  - destruct H as [H|[H|H]]; [left; symmetry; exact H|right; left; exact H|right; right; exact H].
  - destruct H as [H|[H|H]]; [left; symmetry; exact H|right; left; exact H|right; right; exact H].
  - destruct H as [H|H]; [right; left; exact H|].
    destruct (IH H) as [->|H']; [left; reflexivity|right; right; exact H'].
Qed.

Lemma In_sort_by {A} (cmp : A -> A -> comparison) (y : A) (l : list A) :
  In y (sort_by cmp l) -> In y l.
Proof.
  induction l as [|x l IH]; simpl; [tauto|].
  intros H. apply In_insert_by in H as [H|H]; [left; symmetry; exact H|right; auto].
Qed.

Lemma In_firstn {A} (n : nat) (x : A) (l : list A) : In x (firstn n l) -> In x l.
Proof.
  intros H. rewrite <- (firstn_skipn n l). apply in_or_app. left. exact H.
Qed.

Lemma In_skipn {A} (n : nat) (x : A) (l : list A) : In x (skipn n l) -> In x l.
Proof.
  intros H. rewrite <- (firstn_skipn n l). apply in_or_app. right. exact H.
Qed.

(** What a successful [GetAll] against PostgreSQL returns: the movies of
    the page cut from the sorted matching rows, and the metadata of the
    count those rows carry. *)
Lemma GetAll_pg_success (st : store) (title : string) (genres : slice string)
    (filters : Filters) (col : string) (ms : list Movie) (md : Metadata) :
  sortColumn filters = Some col ->
  GetAll (pg_select st) title genres filters = GA_return (Some ms) md None ->
  let q := getall_query title genres filters col in
  let matched := filter (selected q) (st_rows st) in
  exists window,
    0 <= limit filters
    /\ window = firstn (Z.to_nat (limit filters))
                  (skipn (Z.to_nat (offset filters))
                     (sort_by (order_by col (sortDirection filters)) matched))
    /\ ms = map movie_of_row window
    /\ md = calculateMetadata (last (map (fun _ => Z.of_nat (List.length matched)) window) 0)
              (Page filters) (PageSize filters).
Proof.
  intros Hcol H q matched. unfold GetAll in H. rewrite Hcol in H.
  fold q in H. unfold pg_select in H.
  destruct (st_fail st); [discriminate|].
  destruct (negb (column_exists (sq_col q))); [discriminate|].
  destruct (sq_limit q <? 0) eqn:Hl; [discriminate|].
  destruct (sq_offset q <? 0); [discriminate|].
  rewrite <- (map_map (fun r => mkResult (Z.of_nat (List.length (filter (selected q) (st_rows st)))) r) inr),
    scan_rows_ok in H.
  injection H as <- <-.
  eexists. split; [apply Z.ltb_ge in Hl; exact Hl|]. split; [reflexivity|].
  rewrite !map_map. split; reflexivity.
Qed.

(** A successful [GetAll] against PostgreSQL returns at most [PageSize]
    movies, each read from a stored row that satisfies the query's
    [WHERE] clause. *)
Theorem GetAll_pg_page (st : store) (title : string) (genres : slice string)
    (filters : Filters) (col : string) (ms : list Movie) (md : Metadata) :
  sortColumn filters = Some col ->
  GetAll (pg_select st) title genres filters = GA_return (Some ms) md None ->
  Z.of_nat (List.length ms) <= PageSize filters
  /\ (forall m, In m ms -> exists r, In r (st_rows st)
        /\ selected (getall_query title genres filters col) r = true
        /\ m = movie_of_row r).
Proof.
  intros Hcol H.
  destruct (GetAll_pg_success st title genres filters col ms md Hcol H)
    as [window [Hl [Hw [-> _]]]].
  split.
  - rewrite length_map, Hw, length_firstn. unfold limit in *. lia.
  - intros m Hm. apply in_map_iff in Hm as [r [<- Hr]].
    rewrite Hw in Hr. apply In_firstn, In_skipn in Hr.
    apply In_sort_by, filter_In in Hr as [Hr Hs].
    exists r. split; [exact Hr|split; [exact Hs|reflexivity]].
Qed.

Lemma GetAll_pg_page_witness :
  GetAll (pg_select store0) "" (Some []) filters0
  = GA_return (Some [movie_of_row row1; movie_of_row row2]) (mkMetadata 1 20 1 1 2) None
  /\ Z.of_nat (List.length [movie_of_row row1; movie_of_row row2]) <= PageSize filters0.
Proof.
  split; [reflexivity|].
  exact (proj1 (GetAll_pg_page store0 "" (Some []) filters0 "title"
                  [movie_of_row row1; movie_of_row row2] (mkMetadata 1 20 1 1 2)
                  eq_refl eq_refl)).
Defined.

Lemma last_map_const {A} (c d : Z) (l : list A) :
  l <> [] -> last (map (fun _ => c) l) d = c.
Proof.
  intros Hl. destruct l as [|x l]; [contradiction|]. clear Hl.
  revert x. induction l as [|y l IH]; intros x; [reflexivity|].
  change (last (map (fun _ => c) (x :: y :: l)) d) with (last (map (fun _ => c) (y :: l)) d).
  apply IH.
Qed.

Lemma TotalRecords_calculateMetadata (t page pageSize : Z) :
  TotalRecords (calculateMetadata t page pageSize) = t.
Proof.
  unfold calculateMetadata. destruct (Z.eqb_spec t 0) as [->|_]; reflexivity.
Qed.

(** The total [GetAll] reports with a non-empty page is the number of rows
    matching the query, not the size of the page: [count( * ) OVER()] is
    taken before [LIMIT] and [OFFSET]. *)
Theorem GetAll_pg_total (st : store) (title : string) (genres : slice string)
    (filters : Filters) (col : string) (m : Movie) (ms : list Movie) (md : Metadata) :
  sortColumn filters = Some col ->
  GetAll (pg_select st) title genres filters = GA_return (Some (m :: ms)) md None ->
  TotalRecords md
  = Z.of_nat (List.length (filter (selected (getall_query title genres filters col))
                             (st_rows st))).
Proof.
  intros Hcol H.
  destruct (GetAll_pg_success st title genres filters col (m :: ms) md Hcol H)
    as [window [_ [_ [Hms ->]]]].
  rewrite TotalRecords_calculateMetadata. apply last_map_const.
  intros ->. discriminate.
Qed.

Lemma GetAll_pg_total_witness :
  GetAll (pg_select store0) "" (Some []) filters_small
  = GA_return (Some [movie_of_row row2]) (mkMetadata 1 1 1 2 2) None
  /\ TotalRecords (mkMetadata 1 1 1 2 2)
     = Z.of_nat (List.length (filter (selected (getall_query "" (Some []) filters_small "title"))
                                (st_rows store0))).
Proof.
  split; [reflexivity|].
  exact (GetAll_pg_total store0 "" (Some []) filters_small "title" (movie_of_row row2) []
           (mkMetadata 1 1 1 2 2) eq_refl eq_refl).
Defined.

(** A nil genre slice gets two genre violations from [ValidateMovie]
    ("must be provided" and "must contain at least 1 genre"); an empty
    non-nil slice gets only the second. *)
Theorem ValidateMovie_missing_genres (now : time) (movie : Movie) :
  (Genres movie = None ->
   filter (fun p => String.eqb (fst p) "genres") (Errors (ValidateMovie now (mkValidator []) movie))
   = [("genres"%string, "must be provided"%string);
      ("genres"%string, "must contain at least 1 genre"%string)])
  /\ (Genres movie = Some [] ->
      filter (fun p => String.eqb (fst p) "genres") (Errors (ValidateMovie now (mkValidator []) movie))
      = [("genres"%string, "must contain at least 1 genre"%string)]).
Proof.
  rewrite ValidateMovie_run_checks, run_checks_errors.
  unfold validate_checks, check_errors, slice_len, slice_elems.
  split; intros Hg; rewrite Hg; simpl;
    destruct (negb (String.eqb (Title movie) "")),
      (Z.of_nat (String.length (Title movie)) <=? 500),
      (negb (IsZero (ReleaseDate movie))),
      (Year (ReleaseDate movie) >=? 1888),
      (Before (ReleaseDate movie) now); reflexivity.
Qed.

Lemma ValidateMovie_missing_genres_witness :
  filter (fun p => String.eqb (fst p) "genres")
    (Errors (ValidateMovie now0 (mkValidator []) movie_nil_genres))
  = [("genres"%string, "must be provided"%string);
     ("genres"%string, "must contain at least 1 genre"%string)].
Proof.
  exact (proj1 (ValidateMovie_missing_genres now0 movie_nil_genres) eq_refl).
Defined.

(** ** The store invariant is kept by every operation *)

Lemma NoDup_snoc {A} (l : list A) (x : A) :
  NoDup l -> ~ In x l -> NoDup (l ++ [x]).
Proof.
  intros Hnd Hx. apply (Permutation_NoDup (Permutation_cons_append l x)).
  apply NoDup_cons; assumption.
Qed.

(** The ids left by the [DELETE] filter are a sub-list of the old ones. *)
Lemma ids_filter_NoDup (keep : row -> bool) (rows : list row) :
  NoDup (map r_id rows) -> NoDup (map r_id (filter keep rows)).
Proof.
  induction rows as [|x l IH]; [intros; constructor|].
  cbn [map filter]. rewrite NoDup_cons_iff. intros [Hx Hl].
  case_eq (keep x); intros Hp; cbn [map]; [|exact (IH Hl)].
  apply NoDup_cons; [|exact (IH Hl)].
  rewrite in_map_iff. intros (y & Hy & Hin).
  rewrite filter_In in Hin. apply Hx. rewrite <- Hy.
  exact (in_map r_id l y (proj1 Hin)).
Qed.

Lemma wf_bump (st : store) :
  store_wf st -> store_wf (set_next_id (trip st) (st_next_id st + 1)).
Proof.
  intros [[Hpos [Hlt Hnow]] Hnd]. split; [split; [|split]|]; simpl; try assumption; try lia.
  eapply Forall_impl; [|exact Hlt]. intros r Hr. simpl in Hr. lia.
Qed.

Lemma wf_add_row (st : store) (r : row) :
  store_wf st -> r_id r = st_next_id st ->
  store_wf (set_rows (set_next_id (trip st) (st_next_id st + 1)) (st_rows st ++ [r])).
Proof.
  intros [[Hpos [Hlt Hnow]] Hnd] Hr. split; [split; [|split]|]; simpl; try assumption; try lia.
  - apply Forall_app. split; [|constructor; [simpl; lia|constructor]].
    eapply Forall_impl; [|exact Hlt]. intros x Hx. simpl in Hx. lia.
  - rewrite map_app. simpl. apply NoDup_snoc; [exact Hnd|].
    rewrite Hr. intros Hin. apply in_map_iff in Hin as [x [Hx Hin]].
    rewrite Forall_forall in Hlt. specialize (Hlt x Hin). lia.
Qed.

Lemma wf_map_rows (st : store) (f : row -> row) :
  store_wf st -> (forall r, r_id (f r) = r_id r) ->
  store_wf (set_rows (trip st) (map f (st_rows st))).
Proof.
  intros [[Hpos [Hlt Hnow]] Hnd] Hf.
  assert (E : map r_id (map f (st_rows st)) = map r_id (st_rows st))
    by (rewrite map_map; apply map_ext; exact Hf).
  split; [split; [|split]|]; simpl; try assumption.
  - apply Forall_map. eapply Forall_impl; [|exact Hlt]. intros r Hr. rewrite Hf. exact Hr.
  - rewrite E. exact Hnd.
Qed.

Lemma wf_filter_rows (st : store) (p : row -> bool) :
  store_wf st -> store_wf (set_rows (trip st) (filter p (st_rows st))).
Proof.
  intros [[Hpos [Hlt Hnow]] Hnd]. split; [split; [|split]|]; simpl; try assumption.
  - apply Forall_forall. intros r Hr. apply filter_In in Hr as [Hr _].
    rewrite Forall_forall in Hlt. exact (Hlt r Hr).
  - apply ids_filter_NoDup. exact Hnd.
Qed.

(** [Insert], [Update], [Delete] and [Get], whatever their outcome, keep the
    store invariant: a positive id sequence ahead of every stored id, a set
    server clock, and unique ids. *)
Theorem store_wf_preserved (st : store) (m : Movie) (id : Z) :
  store_wf st ->
  store_wf (fst (fst (Insert st m)))
  /\ store_wf (fst (fst (Update st m)))
  /\ store_wf (fst (Delete st id))
  /\ store_wf (fst (fst (Get st id))).
Proof.
  intros Hwf. split; [|split; [|split]].
  - unfold Insert. destruct (pg_insert st m) as [st' res] eqn:E.
    assert (Hst : store_wf st').
    { unfold pg_insert in E. simpl in E.
      destruct (st_fail st); [injection E as <- _; exact Hwf|].
      destruct (pq_array (Genres m)) as [gs|];
        [|injection E as <- _; apply wf_bump; exact Hwf].
      destruct (negb (release_date_check _ _));
        [injection E as <- _; apply wf_bump; exact Hwf|].
      destruct (negb (genres_length_check gs));
        [injection E as <- _; apply wf_bump; exact Hwf|].
      injection E as <- _. apply wf_add_row; [exact Hwf|reflexivity]. }
    destruct res as [e|[[a b] c]]; exact Hst.
  - unfold Update. destruct (pg_update st m) as [st' res] eqn:E.
    assert (Hst : store_wf st').
    { unfold pg_update in E. simpl in E.
      destruct (st_fail st); [injection E as <- _; exact Hwf|].
      destruct (existsb _ _); simpl in E; [|injection E as <- _; exact Hwf].
      destruct (Version m =? int4_max); [injection E as <- _; exact Hwf|].
      destruct (pq_array (Genres m)) as [gs|]; [|injection E as <- _; exact Hwf].
      destruct (negb (release_date_check _ _)); [injection E as <- _; exact Hwf|].
      destruct (negb (genres_length_check gs)); [injection E as <- _; exact Hwf|].
      injection E as <- _. apply wf_map_rows; [exact Hwf|].
      intros r. destruct ((r_id r =? ID m) && (r_version r =? Version m)); reflexivity. }
    destruct res as [[|msg]|v]; exact Hst.
  - unfold Delete. destruct (id <? 1); [exact Hwf|].
    destruct (pg_delete st id) as [st' res] eqn:E.
    assert (Hst : store_wf st').
    { unfold pg_delete in E. simpl in E.
      destruct (st_fail st); [injection E as <- _; exact Hwf|].
      injection E as <- _. apply wf_filter_rows. exact Hwf. }
    destruct res as [e|[e|n]]; [exact Hst|exact Hst|].
    destruct (n =? 0); exact Hst.
  - unfold Get. destruct (id <? 1); [exact Hwf|].
    destruct (pg_select_by_id st id) as [st' res] eqn:E.
    assert (Hst : store_wf st').
    { unfold pg_select_by_id in E. simpl in E.
      destruct (st_fail st); [injection E as <- _; exact Hwf|].
      destruct (find _ _); injection E as <- _; exact Hwf. }
    destruct res as [[|msg]|r]; exact Hst.
Qed.

Lemma store_wf_preserved_witness :
  store_wf (fst (fst (Insert store0 movie0))).
Proof.
  exact (proj1 (store_wf_preserved store0 movie0 1 (conj store0_ok store0_NoDup))).
Defined.
